(** * Share-link creation workflow of pikpak-plus

    A shallow embedding of
    [pikpak-plus-client/src/components/features/create-share/share-section.tsx]:
    the error classifier [getUserFriendlyError], the local share store gate
    [saveToLocalStorage], and the handlers [handleShare] and [handleRetry] of
    the [ShareSection] component, followed by the properties of the
    specification that concern them.

    Conventions.
    - A JavaScript value of unknown shape ([any]) is a [JsVal]; numbers that
      occur here (HTTP status codes, millisecond timestamps) are integers and
      are kept in [Z].
    - A string is a [string] of 8-bit characters.  [toLowerCase] folds the
      letters A-Z; the case mapping of characters outside ASCII is not
      modelled (they are left as they are).
    - The React state cells ([useState], [useLocalStorage]) are the fields of
      one record, threaded explicitly; a setter is a record update.
    - An [async] handler is the state reached at its [await] together with the
      request it issued and the continuation that runs when the request
      settles.  The continuation keeps the variables of the render in which the
      handler was created ([taskData], [shares]), as a closure does. *)

From Stdlib Require Import String Ascii List ZArith NArith Bool Lia DecimalString.
From Stdlib Require DecimalPos DecimalZ.
Import ListNotations.
Local Open Scope string_scope.
Local Open Scope Z_scope.

(* ================================================================= *)
(** ** JavaScript values and string primitives *)

Module Js.

#[local] Set Warnings "-register-all".

Inductive JsVal : Type :=
| JUndefined
| JNull
| JBool (b : bool)
| JNum (n : Z)
| JStr (s : string)
| JObj (fields : list (string * JsVal)).

(** ToBoolean, as used by [!v], [v && ...] and [v || ...]. *)
Definition truthy (v : JsVal) : bool :=
  match v with
  | JUndefined | JNull => false
  | JBool b => b
  | JNum n => negb (n =? 0)
  | JStr s => negb (s =? EmptyString)%string
  | JObj _ => true
  end.

Fixpoint lookup (k : string) (fields : list (string * JsVal)) : JsVal :=
  match fields with
  | [] => JUndefined
  | (k', v) :: rest => if (k' =? k)%string then v else lookup k rest
  end.

(** [v?.k]: [undefined] on [null] and [undefined]; a primitive has no own
    property of the names read here. *)
Definition opt_get (v : JsVal) (k : string) : JsVal :=
  match v with
  | JObj fields => lookup k fields
  | _ => JUndefined
  end.

(** [typeof v === "string"]. *)
Definition typeof_string (v : JsVal) : bool :=
  match v with JStr _ => true | _ => false end.

(** Truthiness of an optional string ([undefined], or a string). *)
Definition truthy_str (o : option string) : bool :=
  match o with
  | Some s => negb (s =? EmptyString)%string
  | None => false
  end.

(** [o || d] for an optional string [o]. *)
Definition or_else (o : option string) (d : string) : string :=
  match o with
  | Some s => if (s =? EmptyString)%string then d else s
  | None => d
  end.

(** Truthiness of an optional boolean. *)
Definition truthy_bool (o : option bool) : bool :=
  match o with Some b => b | None => false end.

Definition is_upper (c : ascii) : bool :=
  let n := N_of_ascii c in ((65 <=? n) && (n <=? 90))%N.

Definition to_lower_char (c : ascii) : ascii :=
  if is_upper c then ascii_of_N (N_of_ascii c + 32) else c.

(** [s.toLowerCase()]. *)
Fixpoint toLowerCase (s : string) : string :=
  match s with
  | EmptyString => EmptyString
  | String c rest => String (to_lower_char c) (toLowerCase rest)
  end.

(** [s.includes(sub)]: [sub] occurs in [s] at some position. *)
Fixpoint includes (s sub : string) : bool :=
  if String.prefix sub s then true
  else match s with
       | EmptyString => false
       | String _ rest => includes rest sub
       end.

(** The decimal text of an integer, as a template literal prints it. *)
Definition num_to_string (n : Z) : string :=
  NilZero.string_of_int (Z.to_int n).

End Js.
Import Js.

(* ================================================================= *)
(** ** Error classifier (lines 27-57) *)

(** The response part of a rejected axios call: [status] is a number,
    [data] is the parsed body, of any shape. *)
Record AxiosResponse : Type := {
  status : Z;
  data : JsVal
}.

(** What the [catch] clause receives.  [response] is absent for a transport
    failure and for any exception that is not an HTTP error; [message] and
    [code] are the other fields such an object carries. *)
Record AxiosError : Type := {
  message : string;
  code : option string;
  response : option AxiosResponse
}.

Definition MSG_NETWORK : string :=
  "Unable to connect. Please check your internet connection.".
Definition MSG_PERMISSION : string :=
  "You don't have permission to share this file.".
Definition MSG_SERVER : string :=
  "Server is temporarily unavailable. Please try again later.".
Definition MSG_TIMEOUT : string :=
  "Request timed out. Please try again.".
Definition MSG_NOT_FOUND : string :=
  "File not found. It may have been deleted.".
Definition MSG_FALLBACK : string :=
  "Failed to create share link. Please try again.".
Definition MSG_NO_FILE_ID : string :=
  "File ID not available. Task may not be completed yet.".

Definition getUserFriendlyError (error : AxiosError) : string :=
  match response error with
  | None => MSG_NETWORK
  | Some resp =>
      let status := status resp in
      if (status =? 403) || (status =? 401) then MSG_PERMISSION
      else if status >=? 500 then MSG_SERVER
      else
        let apiError := opt_get (data resp) "error" in
        match apiError with
        | JStr s =>
            if truthy apiError && typeof_string apiError then
              if includes (toLowerCase s) "timeout" then MSG_TIMEOUT
              else if includes (toLowerCase s) "not found" then MSG_NOT_FOUND
              else s
            else MSG_FALLBACK
        | _ => MSG_FALLBACK
        end
  end.

(* ================================================================= *)
(** ** Data of the component *)

(** The fields of [task.data.task?.task] that the component reads. *)
Record TaskData : Type := {
  file_id : option string;
  file_name : option string;
  progress : option Z
}.

(** Body of a successful [POST /share] (the type of the [shareData] cell,
    with the [share_id] that [saveToLocalStorage] reads). *)
Record ShareResult : Type := {
  share_url : string;
  pass_code : option string;
  is_existing : option bool;
  share_id : option string
}.

(** [LocalShare], as the object literal of [saveToLocalStorage] builds it. *)
Record LocalShare : Type := {
  ls_id : string;
  ls_file_name : string;
  ls_share_url : string;
  ls_pass_code : option string;
  ls_timestamp : Z;
  ls_file_id : string
}.

(** The four state cells of [ShareSection] (lines 64-74). *)
Record ShareState : Type := {
  shareLoading : bool;
  shareData : option ShareResult;
  shareError : option string;
  shares : list LocalShare
}.

Definition initial_state (stored : list LocalShare) : ShareState :=
  {| shareLoading := false; shareData := None; shareError := None;
     shares := stored |}.

Definition setShareLoading (b : bool) (st : ShareState) : ShareState :=
  {| shareLoading := b; shareData := shareData st;
     shareError := shareError st; shares := shares st |}.

Definition setShareData (d : option ShareResult) (st : ShareState) : ShareState :=
  {| shareLoading := shareLoading st; shareData := d;
     shareError := shareError st; shares := shares st |}.

Definition setShareError (e : option string) (st : ShareState) : ShareState :=
  {| shareLoading := shareLoading st; shareData := shareData st;
     shareError := e; shares := shares st |}.

Definition setShares (l : list LocalShare) (st : ShareState) : ShareState :=
  {| shareLoading := shareLoading st; shareData := shareData st;
     shareError := shareError st; shares := l |}.

(** What one render binds and its handlers close over: the task of the
    props, the value of the [shares] cell at that render, and the API base
    address that [getApiUrl] reports. *)
Record Render : Type := {
  taskData : option TaskData;
  snapshot : list LocalShare;
  apiUrl : string
}.

(** The two readings of [Date.now()] taken by [saveToLocalStorage]: the
    first inside the fallback id, the second for [timestamp]. *)
Record Clock : Type := {
  now_id : Z;
  now_stamp : Z
}.

(** [taskData?.file_id] and [taskData?.file_name]. *)
Definition task_file_id (r : Render) : option string :=
  match taskData r with Some t => file_id t | None => None end.

Definition task_file_name (r : Render) : option string :=
  match taskData r with Some t => file_name t | None => None end.

Definition hasFileId (r : Render) : bool := truthy_str (task_file_id r).

(* ================================================================= *)
(** ** Local share store (lines 80-95) *)

Definition newShare (r : Render) (clk : Clock) (shareResult : ShareResult)
    (fileId : string) : LocalShare :=
  {| ls_id := or_else (share_id shareResult)
                      ("share-" ++ num_to_string (now_id clk));
     ls_file_name := or_else (task_file_name r) "Unknown File";
     ls_share_url := share_url shareResult;
     ls_pass_code := pass_code shareResult;
     ls_timestamp := now_stamp clk;
     ls_file_id := fileId |}.

(** [shares.some((s) => s.file_id === fileId)]. *)
Definition alreadyExists (l : list LocalShare) (fileId : string) : bool :=
  existsb (fun s => (ls_file_id s =? fileId)%string) l.

Definition saveToLocalStorage (r : Render) (clk : Clock)
    (shareResult : ShareResult) (fileId : string) (st : ShareState)
    : ShareState :=
  if negb (alreadyExists (snapshot r) fileId)
  then setShares (newShare r clk shareResult fileId :: snapshot r) st
  else st.

(* ================================================================= *)
(** ** Handlers (lines 97-130) *)

(** The one remote call: [axios.post(`${apiUrl}/share`, { id })]. *)
Record PostRequest : Type := {
  url : string;
  body_id : string
}.

Inductive Outcome : Type :=
| Resolved (shareResult : ShareResult)
| Rejected (error : AxiosError).

(** An [async] handler after its synchronous part: either it returned, or
    it is suspended at the [await] of one request. *)
Inductive Handler : Type :=
| Returned (st : ShareState)
| Awaiting (st : ShareState) (req : PostRequest)
           (k : Outcome -> Clock -> ShareState -> ShareState).

(** The part of [handleShare] after the [await]: the rest of the [try]
    block, the [catch] and the [finally]. *)
Definition handleShare_settle (r : Render) (fileId : string)
    (o : Outcome) (clk : Clock) (st : ShareState) : ShareState :=
  let st :=
    match o with
    | Resolved shareResult =>
        let st := setShareData (Some shareResult) st in
        if negb (truthy_bool (is_existing shareResult))
        then saveToLocalStorage r clk shareResult fileId st
        else st
    | Rejected error =>
        let friendlyError := getUserFriendlyError error in
        setShareError (Some friendlyError) st
    end in
  setShareLoading false st.

Definition handleShare (r : Render) (st : ShareState) : Handler :=
  match task_file_id r with
  | Some fileId =>
      if truthy_str (Some fileId) then
        let st := setShareLoading true st in
        let st := setShareError None st in
        Awaiting st {| url := apiUrl r ++ "/share"; body_id := fileId |}
                 (handleShare_settle r fileId)
      else Returned (setShareError (Some MSG_NO_FILE_ID) st)
  | None => Returned (setShareError (Some MSG_NO_FILE_ID) st)
  end.

Definition handleRetry (r : Render) (st : ShareState) : Handler :=
  let st := setShareError None st in
  handleShare r st.

(** Observations on a handler. *)
Definition state_of (h : Handler) : ShareState :=
  match h with Returned st => st | Awaiting st _ _ => st end.

Definition remote_calls (h : Handler) : list PostRequest :=
  match h with Returned _ => [] | Awaiting _ req _ => [req] end.

(** The state once the handler has run to its end, the request (if one was
    issued) having settled with [o] while nothing else touched the state. *)
Definition complete (h : Handler) (o : Outcome) (clk : Clock) : ShareState :=
  match h with
  | Returned st => st
  | Awaiting st _ k => k o clk st
  end.

(* ================================================================= *)
(** ** The workflow as the page drives it *)

(** The render of the current state under given props. *)
Definition render_at (t : option TaskData) (api : string) (st : ShareState)
    : Render :=
  {| taskData := t; snapshot := shares st; apiUrl := api |}.

(** [disabled={shareLoading || !hasFileId || shareData?.is_existing}] on the
    button bound to [handleShare] (line 236). *)
Definition share_disabled (r : Render) (st : ShareState) : bool :=
  shareLoading st || negb (hasFileId r)
  || match shareData st with
     | Some d => truthy_bool (is_existing d)
     | None => false
     end.

(** [{shareError && (... onClick={handleRetry} ...)}] (line 173). *)
Definition retry_shown (st : ShareState) : bool :=
  truthy_str (shareError st).

(** One mounted component: its state cells, the continuations of the
    requests still in flight, and two logs kept for the statements below
    (the requests sent, oldest first; the outcomes received, oldest first). *)
Record Session : Type := {
  ui : ShareState;
  pending : list (Outcome -> Clock -> ShareState -> ShareState);
  sent : list PostRequest;
  settled : list Outcome
}.

Definition mount (stored : list LocalShare) : Session :=
  {| ui := initial_state stored; pending := []; sent := []; settled := [] |}.

Definition continuations (h : Handler)
    : list (Outcome -> Clock -> ShareState -> ShareState) :=
  match h with Returned _ => [] | Awaiting _ _ k => [k] end.

Definition launch (h : Handler) (w : Session) : Session :=
  {| ui := state_of h;
     pending := pending w ++ continuations h;
     sent := sent w ++ remote_calls h;
     settled := settled w |}.

Fixpoint remove_nth {A : Type} (i : nat) (l : list A) : list A :=
  match l, i with
  | [], _ => []
  | _ :: rest, O => rest
  | x :: rest, S j => x :: remove_nth j rest
  end.

(** What can happen to a mounted component: a click on one of the two
    buttons, under the props of that moment, or the settling of a request
    in flight. *)
Inductive Event : Type :=
| ClickShare (t : option TaskData) (api : string)
| ClickRetry (t : option TaskData) (api : string)
| Settle (i : nat) (o : Outcome) (clk : Clock).

(** A click has an effect only on a button that is there and enabled. *)
Definition step (e : Event) (w : Session) : option Session :=
  match e with
  | ClickShare t api =>
      let r := render_at t api (ui w) in
      if share_disabled r (ui w) then None
      else Some (launch (handleShare r (ui w)) w)
  | ClickRetry t api =>
      let r := render_at t api (ui w) in
      if retry_shown (ui w) then Some (launch (handleRetry r (ui w)) w)
      else None
  | Settle i o clk =>
      match nth_error (pending w) i with
      | Some k =>
          Some {| ui := k o clk (ui w);
                  pending := remove_nth i (pending w);
                  sent := sent w;
                  settled := settled w ++ [o] |}
      | None => None
      end
  end.

Fixpoint run (evs : list Event) (w : Session) : option Session :=
  match evs with
  | [] => Some w
  | e :: rest =>
      match step e w with
      | Some w' => run rest w'
      | None => None
      end
  end.

Definition reachable (stored : list LocalShare) (w : Session) : Prop :=
  exists evs, run evs (mount stored) = Some w.

(* ================================================================= *)
(** ** The vocabulary of the specification *)

(** The [status] of the specification's ShareRequestState.  The component
    keeps no such cell; this is the status that its three cells display:
    the spinner while [shareLoading], else the error alert, else the link. *)
Inductive Status : Type := Idle | Loading | Succeeded | Failed.

Definition status_of (st : ShareState) : Status :=
  if shareLoading st then Loading
  else match shareError st, shareData st with
       | Some _, _ => Failed
       | None, Some _ => Succeeded
       | None, None => Idle
       end.

(** "The result is present iff status = succeeded, and the errorMessage is
    present iff status = failed", for a reading [view] of the status. *)
Definition status_coherent (view : ShareState -> Status) (st : ShareState)
    : Prop :=
  (shareData st <> None <-> view st = Succeeded)
  /\ (shareError st <> None <-> view st = Failed).

(** The store operation [append(record)] in the words of the
    specification: prepend unless a record with the same source file
    identity exists, otherwise do nothing. *)
Definition store_append (record : LocalShare) (store : list LocalShare)
    : list LocalShare :=
  if existsb (fun s => (ls_file_id s =? ls_file_id record)%string) store
  then store
  else record :: store.

(** The records of a store created from a given file identity. *)
Definition records_of (fileId : string) (store : list LocalShare)
    : list LocalShare :=
  filter (fun s => (ls_file_id s =? fileId)%string) store.

(** Two characters are the same letter up to casing. *)
Definition same_letter (a b : ascii) : bool :=
  (a =? b)%char
  || (is_upper a && (b =? ascii_of_N (N_of_ascii a + 32))%char)
  || (is_upper b && (a =? ascii_of_N (N_of_ascii b + 32))%char).

Fixpoint same_word (w pat : string) : bool :=
  match w, pat with
  | EmptyString, EmptyString => true
  | String a w', String b pat' => same_letter a b && same_word w' pat'
  | _, _ => false
  end.

(** [s] contains [pat] in some letter casing. *)
Definition contains_any_case (s pat : string) : Prop :=
  exists pre w post, s = (pre ++ w ++ post)%string /\ same_word w pat = true.

(** The outcome last received that was a success, if any. *)
Definition last_resolved (log : list Outcome) : option ShareResult :=
  fold_left (fun acc o => match o with
                          | Resolved d => Some d
                          | Rejected _ => acc
                          end) log None.

(** What holds of a mounted component at all times: the stored result is
    the latest successful response; and either a request is in flight, the
    loading flag is up and no error is shown, or nothing is in flight and
    the loading flag is down. *)
Inductive session_ok (w : Session) : Prop :=
| ok_loading (r : Render) (fileId : string) :
    shareData (ui w) = last_resolved (settled w) ->
    shareLoading (ui w) = true ->
    shareError (ui w) = None ->
    pending w = [handleShare_settle r fileId] ->
    session_ok w
| ok_at_rest :
    shareData (ui w) = last_resolved (settled w) ->
    shareLoading (ui w) = false ->
    pending w = [] ->
    session_ok w.

(* ================================================================= *)
(** ** Sample data *)

Definition sample_task : option TaskData :=
  Some {| file_id := Some "f1"; file_name := Some "movie.mkv";
          progress := Some 100 |}.

Definition sample_task_unfinished : option TaskData :=
  Some {| file_id := None; file_name := Some "movie.mkv";
          progress := Some 40 |}.

Definition sample_render : Render :=
  render_at sample_task "http://api" (initial_state []).

Definition sample_new : ShareResult :=
  {| share_url := "https://x/y"; pass_code := Some "1234";
     is_existing := Some false; share_id := None |}.

Definition sample_existing : ShareResult :=
  {| share_url := "https://x/y"; pass_code := None;
     is_existing := Some true; share_id := Some "s1" |}.

Definition sample_clock : Clock :=
  {| now_id := 1700000000000; now_stamp := 1700000000001 |}.

Definition sample_offline : AxiosError :=
  {| message := "Network Error"; code := Some "ERR_NETWORK";
     response := None |}.

Definition sample_http_500 : AxiosError :=
  {| message := "Request failed with status code 500"; code := None;
     response := Some {| status := 500;
                         data := JObj [("error", JStr "internal failure")] |}
  |}.

(** Create a link, then refresh it while the network is down. *)
Definition refresh_while_offline : list Event :=
  [ ClickShare sample_task "http://api";
    Settle 0 (Resolved sample_new) sample_clock;
    ClickShare sample_task "http://api";
    Settle 0 (Rejected sample_offline) sample_clock ].

(* ================================================================= *)
(** ** Further vocabulary *)

(** The six messages that the classifier words itself. *)
Definition FIXED_MESSAGES : list string :=
  [MSG_NETWORK; MSG_PERMISSION; MSG_SERVER; MSG_TIMEOUT; MSG_NOT_FOUND;
   MSG_FALLBACK].

(** The status checks of lines 36 and 39 let the response through. *)
Definition status_passes (resp : AxiosResponse) : Prop :=
  status resp <> 401 /\ status resp <> 403 /\ status resp < 500.

(** How many of the outcomes received were successes not flagged as an
    existing share, the ones on which [saveToLocalStorage] is called. *)
Definition count_new (log : list Outcome) : nat :=
  length (filter (fun o => match o with
                           | Resolved d => negb (truthy_bool (is_existing d))
                           | Rejected _ => false
                           end) log).

(** What holds of a component mounted on the stored list [stored], at all
    times: at most one request is in flight, launched from the render of the
    current store, and the loading flag is up exactly then; the store is the
    stored list with records added in front, no more than there were new
    shares; it repeats no file identity unless the stored list did; every
    request sent has settled or is in flight, and names a file. *)
Record session_inv (stored : list LocalShare) (w : Session) : Prop := {
  inv_flight :
    (exists r fileId,
        pending w = [handleShare_settle r fileId]
        /\ snapshot r = shares (ui w)
        /\ shareLoading (ui w) = true
        /\ shareError (ui w) = None)
    \/ (pending w = [] /\ shareLoading (ui w) = false);
  inv_store :
    exists added,
      shares (ui w) = (added ++ stored)%list
      /\ (length added <= count_new (settled w))%nat;
  inv_unique :
    NoDup (map ls_file_id stored) -> NoDup (map ls_file_id (shares (ui w)));
  inv_sent :
    length (sent w) = (length (settled w) + length (pending w))%nat;
  inv_ids :
    Forall (fun q => body_id q <> EmptyString) (sent w)
}.

(* ================================================================= *)
(** * Properties *)

(** ** String primitives *)

Lemma toLowerCase_app (a b : string) :
  toLowerCase (a ++ b) = (toLowerCase a ++ toLowerCase b)%string.
Proof.
  induction a as [|c a IH]; simpl; [reflexivity|].
  now rewrite IH.
Qed.

Lemma to_lower_char_shift (a : ascii) :
  is_upper a = true ->
  to_lower_char (ascii_of_N (N_of_ascii a + 32)) = to_lower_char a.
Proof.
  destruct a as [[] [] [] [] [] [] [] []]; intros H;
    vm_compute in H; try discriminate H; reflexivity.
Qed.

Lemma same_letter_lower (a b : ascii) :
  same_letter a b = true -> to_lower_char a = to_lower_char b.
Proof.
  unfold same_letter. intros H.
  apply orb_true_iff in H as [H|H]; [apply orb_true_iff in H as [H|H]|].
  - apply Ascii.eqb_eq in H. now subst.
  - apply andb_true_iff in H as [Hu Hb]. apply Ascii.eqb_eq in Hb. subst b.
    symmetry. now apply to_lower_char_shift.
  - apply andb_true_iff in H as [Hu Ha]. apply Ascii.eqb_eq in Ha. subst a.
    now apply to_lower_char_shift.
Qed.

Lemma same_word_lower (w pat : string) :
  same_word w pat = true -> toLowerCase w = toLowerCase pat.
Proof.
  revert pat. induction w as [|a w IH]; intros [|b pat] H; simpl in H;
    try discriminate H; [reflexivity|].
  apply andb_true_iff in H as [Hl Hw]. simpl.
  now rewrite (same_letter_lower _ _ Hl), (IH _ Hw).
Qed.

Lemma prefix_app (w post : string) : String.prefix w (w ++ post) = true.
Proof.
  induction w as [|c w IH]; simpl.
  - now destruct post.
  - destruct (ascii_dec c c) as [_|N]; [exact IH | now elim N].
Qed.

Lemma includes_prefix (s sub : string) :
  String.prefix sub s = true -> includes s sub = true.
Proof.
  intros H. destruct s; cbn [includes]; rewrite H; reflexivity.
Qed.

Lemma includes_app (pre w post : string) :
  includes (pre ++ w ++ post) w = true.
Proof.
  induction pre as [|c pre IH].
  - cbn [append]. apply includes_prefix, prefix_app.
  - change (String c pre ++ w ++ post)%string
      with (String c (pre ++ w ++ post)).
    cbn [includes]. rewrite IH. now destruct (String.prefix _ _).
Qed.

(** A message that contains [pat] (a lower-case word) in some casing is
    found by the test [apiError.toLowerCase().includes(pat)]. *)
Lemma includes_any_case (s pat : string) :
  toLowerCase pat = pat ->
  contains_any_case s pat ->
  includes (toLowerCase s) pat = true.
Proof.
  intros Hpat (pre & w & post & -> & Hw).
  rewrite !toLowerCase_app, (same_word_lower _ _ Hw), Hpat.
  apply includes_app.
Qed.

(** ** Error classifier *)

(** C7: a failure descriptor with no response is classified as the
    network-unreachable message, whatever its other fields hold. *)
Theorem classifier_no_response (e : AxiosError) :
  response e = None ->
  getUserFriendlyError e
  = "Unable to connect. Please check your internet connection.".
Proof.
  intros H. unfold getUserFriendlyError. now rewrite H.
Qed.

Lemma classifier_no_response_witness :
  getUserFriendlyError
    {| message := "timeout of 0ms exceeded"; code := Some "ECONNABORTED";
       response := None |}
  = "Unable to connect. Please check your internet connection.".
Proof.
  apply classifier_no_response. reflexivity.
Defined.

(** C6: when a response was received with status 401 or 403, the
    classifier returns the permission message, whatever the body of the
    response holds (a server message included): the status checks come
    before the message checks. *)
Theorem classifier_forbidden (e : AxiosError) (resp : AxiosResponse) :
  response e = Some resp ->
  status resp = 401 \/ status resp = 403 ->
  getUserFriendlyError e = "You don't have permission to share this file.".
Proof.
  intros H Hs. unfold getUserFriendlyError. rewrite H. cbv zeta.
  destruct Hs as [-> | ->]; reflexivity.
Qed.

Lemma classifier_forbidden_witness :
  getUserFriendlyError
    {| message := "Request failed with status code 401"; code := None;
       response := Some {| status := 401;
                           data := JObj [("error", JStr "not found")] |} |}
  = "You don't have permission to share this file.".
Proof.
  eapply classifier_forbidden; [reflexivity | left; reflexivity].
Defined.

(** C8: when a response was received whose status is neither 401 nor 403
    and is below 500, and whose body carries as [error] a non-empty string
    that contains "timeout" in any letter casing, the classifier returns the
    timeout message. *)
Theorem classifier_timeout (e : AxiosError) (resp : AxiosResponse)
    (serverMessage : string) :
  response e = Some resp ->
  status resp <> 401 -> status resp <> 403 -> status resp < 500 ->
  opt_get (data resp) "error" = JStr serverMessage ->
  serverMessage <> EmptyString ->
  contains_any_case serverMessage "timeout" ->
  getUserFriendlyError e = "Request timed out. Please try again.".
Proof.
  intros H H401 H403 H500 Hmsg Hne Hc.
  unfold getUserFriendlyError. rewrite H. cbv zeta.
  apply Z.eqb_neq in H401, H403. rewrite H401, H403. cbn [orb].
  destruct (status resp >=? 500) eqn:E; [apply Z.geb_le in E; lia|].
  rewrite Hmsg. cbn [truthy typeof_string].
  apply String.eqb_neq in Hne. rewrite Hne. cbn [negb andb].
  rewrite (includes_any_case _ _ eq_refl Hc). reflexivity.
Qed.

Lemma classifier_timeout_witness :
  getUserFriendlyError
    {| message := "Request failed with status code 408"; code := None;
       response := Some {| status := 408;
                           data := JObj [("error",
                                          JStr "Gateway TimeOut (30s)")] |} |}
  = "Request timed out. Please try again.".
Proof.
  eapply (classifier_timeout _ _ "Gateway TimeOut (30s)");
    [reflexivity | cbn; lia | cbn; lia | cbn; lia | reflexivity
    | discriminate |].
  exists "Gateway ", "TimeOut", " (30s)". split; reflexivity.
Defined.

(** ** Local share store *)

Lemma alreadyExists_none (l : list LocalShare) (fileId : string) :
  alreadyExists l fileId = false -> records_of fileId l = [].
Proof.
  unfold alreadyExists, records_of.
  induction l as [|s l IH]; simpl; [reflexivity|].
  intros H. apply orb_false_iff in H as [Hs Hl].
  rewrite Hs. now apply IH.
Qed.

(** On the render of the current state, [saveToLocalStorage] is the
    [append] of the specification applied to the record it builds. *)
Lemma saveToLocalStorage_append (t : option TaskData) (api : string)
    (clk : Clock) (res : ShareResult) (fileId : string) (st : ShareState) :
  shares (saveToLocalStorage (render_at t api st) clk res fileId st)
  = store_append (newShare (render_at t api st) clk res fileId) (shares st).
Proof.
  unfold saveToLocalStorage, store_append, alreadyExists. cbn.
  now destruct (existsb _ (shares st)).
Qed.

Lemma saveToLocalStorage_exists (t : option TaskData) (api : string)
    (clk : Clock) (res : ShareResult) (fileId : string) (st : ShareState) :
  alreadyExists
    (shares (saveToLocalStorage (render_at t api st) clk res fileId st))
    fileId = true.
Proof.
  unfold saveToLocalStorage. cbn [snapshot render_at].
  destruct (alreadyExists (shares st) fileId) eqn:E; cbn; [exact E|].
  now rewrite String.eqb_refl.
Qed.

(** C5: two records with the same source file identity are appended one
    after the other, each call seeing the store as the previous one left it.
    The second call changes nothing; and when the store held no record of
    that identity before, it then holds exactly one, the first record. *)
Theorem append_twice_same_file (t1 t2 : option TaskData) (api : string)
    (clk1 clk2 : Clock) (res1 res2 : ShareResult) (fid1 fid2 : string)
    (st : ShareState) :
  let rec1 := newShare (render_at t1 api st) clk1 res1 fid1 in
  let st1 := saveToLocalStorage (render_at t1 api st) clk1 res1 fid1 st in
  let rec2 := newShare (render_at t2 api st1) clk2 res2 fid2 in
  let st2 := saveToLocalStorage (render_at t2 api st1) clk2 res2 fid2 st1 in
  ls_file_id rec1 = ls_file_id rec2 ->
  st2 = st1
  /\ (alreadyExists (shares st) fid1 = false ->
      shares st2 = rec1 :: shares st
      /\ records_of fid1 (shares st2) = [rec1]).
Proof.
  intros rec1 st1 rec2 st2 Hid. cbn in Hid. subst fid2.
  assert (E : st2 = st1).
  { subst st2. unfold saveToLocalStorage at 1. cbn [snapshot render_at].
    subst st1. now rewrite saveToLocalStorage_exists. }
  split; [exact E|]. intros Hfresh. rewrite E. subst st1.
  unfold saveToLocalStorage. cbn [snapshot render_at]. rewrite Hfresh.
  cbn. split; [reflexivity|].
  unfold records_of. cbn. rewrite String.eqb_refl.
  f_equal. now apply alreadyExists_none.
Qed.

Lemma append_twice_same_file_witness :
  let st := initial_state [] in
  let st1 := saveToLocalStorage (render_at sample_task "http://api" st)
               sample_clock sample_new "f1" st in
  saveToLocalStorage (render_at sample_task "http://api" st1)
    sample_clock sample_existing "f1" st1 = st1
  /\ shares st1
     = [{| ls_id := "share-1700000000000"; ls_file_name := "movie.mkv";
           ls_share_url := "https://x/y"; ls_pass_code := Some "1234";
           ls_timestamp := 1700000000001; ls_file_id := "f1" |}].
Proof.
  cbv zeta. split; [|reflexivity].
  apply (append_twice_same_file sample_task sample_task "http://api"
           sample_clock sample_clock sample_new sample_existing "f1" "f1"
           (initial_state [])).
  reflexivity.
Defined.

(** ** One invocation of the handlers *)

(** Splits on the tests of the code that runs after the [await]. *)
Ltac settle_cases :=
  unfold handleShare_settle, saveToLocalStorage;
  repeat match goal with
         | |- context [negb (truthy_bool ?b)] =>
             destruct (negb (truthy_bool b))
         | |- context [negb (alreadyExists ?l ?f)] =>
             destruct (negb (alreadyExists l f))
         end.

Lemma handleShare_ready (r : Render) (st : ShareState) (fileId : string) :
  task_file_id r = Some fileId -> fileId <> EmptyString ->
  handleShare r st
  = Awaiting (setShareError None (setShareLoading true st))
             {| url := apiUrl r ++ "/share"; body_id := fileId |}
             (handleShare_settle r fileId).
Proof.
  intros Hid Hne. unfold handleShare. rewrite Hid. cbn [truthy_str].
  apply String.eqb_neq in Hne. now rewrite Hne.
Qed.

Lemma handleShare_not_ready (r : Render) (st : ShareState) :
  hasFileId r = false ->
  handleShare r st = Returned (setShareError (Some MSG_NO_FILE_ID) st).
Proof.
  unfold hasFileId, handleShare. intros H.
  destruct (task_file_id r) as [fileId|]; [|reflexivity].
  now rewrite H.
Qed.

(** C1: [handleShare] is invoked on a task with a file identity and its
    request succeeds with body [res].  One request was sent; the workflow is
    in the succeeded status with [res] stored; and the store is the result
    of the store's [append] on a new record carrying the share URL of [res]
    when [res.is_existing] is not true (so the record is prepended when the
    store has none of that file identity), and is unchanged when it is
    true. *)
Theorem share_success (t : option TaskData) (api : string) (st : ShareState)
    (fileId : string) (res : ShareResult) (clk : Clock) :
  let r := render_at t api st in
  let h := handleShare r st in
  let st' := complete h (Resolved res) clk in
  let record := newShare r clk res fileId in
  task_file_id r = Some fileId -> fileId <> EmptyString ->
  remote_calls h = [{| url := api ++ "/share"; body_id := fileId |}]
  /\ status_of st' = Succeeded
  /\ shareData st' = Some res
  /\ shareError st' = None
  /\ ls_share_url record = share_url res
  /\ ls_file_id record = fileId
  /\ shares st' = (if truthy_bool (is_existing res) then shares st
                   else store_append record (shares st))
  /\ (truthy_bool (is_existing res) = false ->
      alreadyExists (shares st) fileId = false ->
      shares st' = record :: shares st).
Proof.
  intros r h st' record Hid Hne.
  subst st' h. rewrite (handleShare_ready _ _ _ Hid Hne).
  cbn [remote_calls complete]. unfold handleShare_settle.
  repeat split.
  - unfold status_of.
    destruct (truthy_bool (is_existing res)); cbn; [reflexivity|].
    unfold saveToLocalStorage. now destruct (negb _).
  - destruct (truthy_bool (is_existing res)); cbn; [reflexivity|].
    unfold saveToLocalStorage. now destruct (negb _).
  - destruct (truthy_bool (is_existing res)); cbn; [reflexivity|].
    unfold saveToLocalStorage. now destruct (negb _).
  - destruct (truthy_bool (is_existing res)); cbn [negb]; [reflexivity|].
    cbn [shares setShareLoading].
    unfold saveToLocalStorage, store_append, alreadyExists. cbn.
    now destruct (existsb _ (shares st)).
  - intros Hnew Hfresh. rewrite Hnew. cbn [negb].
    unfold saveToLocalStorage. cbn [snapshot r render_at].
    now rewrite Hfresh.
Qed.

Lemma share_success_witness :
  shares (complete (handleShare sample_render (initial_state []))
                   (Resolved sample_new) sample_clock)
  = [{| ls_id := "share-1700000000000"; ls_file_name := "movie.mkv";
        ls_share_url := "https://x/y"; ls_pass_code := Some "1234";
        ls_timestamp := 1700000000001; ls_file_id := "f1" |}].
Proof.
  pose proof (share_success sample_task "http://api" (initial_state []) "f1"
                sample_new sample_clock eq_refl ltac:(discriminate))
    as (_ & _ & _ & _ & _ & _ & H & _).
  unfold sample_render. rewrite H. reflexivity.
Defined.

(** C2: [handleShare] is invoked on a task with a file identity and its
    request fails with [e].  One request was sent; the workflow is in the
    failed status; the error message is the one the classifier gives for
    [e]; the store is unchanged. *)
Theorem share_failure (r : Render) (st : ShareState) (fileId : string)
    (e : AxiosError) (clk : Clock) :
  let h := handleShare r st in
  let st' := complete h (Rejected e) clk in
  task_file_id r = Some fileId -> fileId <> EmptyString ->
  remote_calls h = [{| url := apiUrl r ++ "/share"; body_id := fileId |}]
  /\ status_of st' = Failed
  /\ shareError st' = Some (getUserFriendlyError e)
  /\ shares st' = shares st.
Proof.
  intros h st' Hid Hne. subst st' h.
  rewrite (handleShare_ready _ _ _ Hid Hne). cbn. repeat split.
Qed.

Lemma share_failure_witness :
  shareError (complete (handleShare sample_render (initial_state []))
                       (Rejected sample_http_500) sample_clock)
  = Some "Server is temporarily unavailable. Please try again later.".
Proof.
  apply (share_failure sample_render (initial_state []) "f1"
           sample_http_500 sample_clock eq_refl).
  discriminate.
Defined.

(** C3: [handleShare] invoked on a task without a file identity (no task
    data, no [file_id], or an empty one) returns at once: no request is
    sent, nothing is left to settle, the loading flag is as it was (so a
    workflow that was not loading is still not loading), and the error
    message is the one for a missing file identity. *)
Theorem share_without_file_id (r : Render) (st : ShareState) :
  let h := handleShare r st in
  hasFileId r = false ->
  remote_calls h = []
  /\ h = Returned (state_of h)
  /\ shareLoading (state_of h) = shareLoading st
  /\ shareError (state_of h)
     = Some "File ID not available. Task may not be completed yet."
  /\ shareData (state_of h) = shareData st
  /\ shares (state_of h) = shares st.
Proof.
  intros h H. subst h. rewrite (handleShare_not_ready _ _ H).
  cbn. repeat split.
Qed.

Lemma share_without_file_id_witness :
  remote_calls
    (handleShare (render_at sample_task_unfinished "http://api"
                    (initial_state []))
                 (initial_state [])) = []
  /\ shareError
       (state_of
          (handleShare (render_at sample_task_unfinished "http://api"
                          (initial_state []))
                       (initial_state [])))
     = Some "File ID not available. Task may not be completed yet.".
Proof.
  pose proof (share_without_file_id
                (render_at sample_task_unfinished "http://api"
                   (initial_state []))
                (initial_state []) eq_refl) as (H1 & _ & _ & H2 & _).
  exact (conj H1 H2).
Defined.

Lemma handleRetry_unfold (r : Render) (st : ShareState) :
  handleRetry r st = handleShare r st.
Proof.
  unfold handleRetry, handleShare.
  destruct (task_file_id r) as [fileId|]; [|reflexivity].
  now destruct (truthy_str (Some fileId)).
Qed.

(** C9: in every state and under every render, [handleRetry] is
    [handleShare]: the same state at the [await] (or at the early return),
    the same requests sent, and the same state once the request has
    settled, whatever its outcome.  Neither handler reads or keeps a count
    of attempts or a delay. *)
Theorem retry_is_share (r : Render) (st : ShareState) :
  handleRetry r st = handleShare r st
  /\ state_of (handleRetry r st) = state_of (handleShare r st)
  /\ remote_calls (handleRetry r st) = remote_calls (handleShare r st)
  /\ (forall o clk,
        complete (handleRetry r st) o clk = complete (handleShare r st) o clk).
Proof.
  rewrite handleRetry_unfold. repeat split.
Qed.

(** C10: an invocation succeeds with [res]; a later invocation fails with
    [e].  After the failure the stored result is still [res], with its URL,
    pass code and flag, next to the new error message. *)
Theorem failure_keeps_result (r1 r2 : Render) (st : ShareState)
    (res : ShareResult) (e : AxiosError) (clk1 clk2 : Clock) :
  let st1 := complete (handleShare r1 st) (Resolved res) clk1 in
  let st2 := complete (handleShare r2 st1) (Rejected e) clk2 in
  hasFileId r1 = true -> hasFileId r2 = true ->
  shareData st1 = Some res
  /\ shareData st2 = Some res
  /\ shareError st2 = Some (getUserFriendlyError e).
Proof.
  intros st1 st2 H1 H2. subst st2 st1.
  unfold hasFileId in H1, H2.
  destruct (task_file_id r1) as [f1|] eqn:E1; [|discriminate H1].
  destruct (task_file_id r2) as [f2|] eqn:E2; [|discriminate H2].
  assert (N1 : f1 <> EmptyString).
  { intros ->. discriminate H1. }
  assert (N2 : f2 <> EmptyString).
  { intros ->. discriminate H2. }
  rewrite (handleShare_ready _ st _ E1 N1). cbn [complete].
  rewrite (handleShare_ready _ _ _ E2 N2). cbn [complete].
  assert (D : shareData (handleShare_settle r1 f1 (Resolved res) clk1
                (setShareError None (setShareLoading true st))) = Some res).
  { settle_cases; reflexivity. }
  repeat split; [exact D | cbn; exact D].
Qed.

Lemma failure_keeps_result_witness :
  let st1 := complete (handleShare sample_render (initial_state []))
               (Resolved sample_new) sample_clock in
  let st2 := complete (handleShare sample_render st1)
               (Rejected sample_offline) sample_clock in
  shareData st2 = Some sample_new
  /\ shareError st2
     = Some "Unable to connect. Please check your internet connection.".
Proof.
  cbv zeta.
  apply (failure_keeps_result sample_render sample_render (initial_state [])
           sample_new sample_offline sample_clock sample_clock
           eq_refl eq_refl).
Defined.

(** ** The workflow over any sequence of events *)

Lemma last_resolved_snoc (log : list Outcome) (o : Outcome) :
  last_resolved (log ++ [o])
  = match o with
    | Resolved d => Some d
    | Rejected _ => last_resolved log
    end.
Proof.
  unfold last_resolved. rewrite fold_left_app. reflexivity.
Qed.

Lemma handleShare_settle_data (r : Render) (fileId : string) (o : Outcome)
    (clk : Clock) (st : ShareState) :
  shareLoading (handleShare_settle r fileId o clk st) = false
  /\ shareData (handleShare_settle r fileId o clk st)
     = match o with
       | Resolved d => Some d
       | Rejected _ => shareData st
       end.
Proof.
  destruct o as [d|e]; [|split; reflexivity].
  settle_cases; split; reflexivity.
Qed.

Lemma mount_ok (stored : list LocalShare) : session_ok (mount stored).
Proof. apply ok_at_rest; reflexivity. Qed.

(** A handler launched on a session at rest leaves a session that is in
    order. *)
Lemma launch_ok (w : Session) (r : Render) :
  shareData (ui w) = last_resolved (settled w) ->
  shareLoading (ui w) = false ->
  pending w = [] ->
  session_ok (launch (handleShare r (ui w)) w).
Proof.
  intros Hd Hl Hp. unfold handleShare.
  destruct (task_file_id r) as [fileId|].
  - destruct (truthy_str (Some fileId)).
    + apply (ok_loading _ r fileId); cbn; try assumption; try reflexivity.
      now rewrite Hp.
    + apply ok_at_rest; cbn; try assumption. now rewrite Hp.
  - apply ok_at_rest; cbn; try assumption. now rewrite Hp.
Qed.

Lemma step_ok (e : Event) (w w' : Session) :
  session_ok w -> step e w = Some w' -> session_ok w'.
Proof.
  intros Hw Hstep. destruct e as [t api | t api | i o clk]; cbn in Hstep.
  - (* the share button *)
    destruct (share_disabled _ _) eqn:Hdis; [discriminate Hstep|].
    injection Hstep as <-.
    unfold share_disabled in Hdis.
    apply orb_false_iff in Hdis as [Hdis _].
    apply orb_false_iff in Hdis as [Hl _].
    destruct Hw as [r fileId _ Hl' _ _ | Hd _ Hp]; [congruence|].
    now apply launch_ok.
  - (* the retry button *)
    destruct (retry_shown (ui w)) eqn:Hshown; [|discriminate Hstep].
    injection Hstep as <-.
    destruct Hw as [r fileId _ _ He _ | Hd Hl Hp].
    + unfold retry_shown in Hshown. rewrite He in Hshown.
      discriminate Hshown.
    + rewrite handleRetry_unfold. now apply launch_ok.
  - (* a request settles *)
    destruct (nth_error (pending w) i) as [k|] eqn:Hk; [|discriminate Hstep].
    injection Hstep as <-.
    destruct Hw as [r fileId Hd Hl He Hp | Hd Hl Hp].
    + rewrite Hp in Hk |- *.
      destruct i as [|i]; [|destruct i; discriminate Hk].
      injection Hk as <-.
      destruct (handleShare_settle_data r fileId o clk (ui w)) as [Hl' Hd'].
      apply ok_at_rest; cbn [ui pending settled remove_nth];
        [|assumption|reflexivity].
      rewrite Hd', last_resolved_snoc. now destruct o.
    + rewrite Hp in Hk. destruct i; discriminate Hk.
Qed.

Lemma run_ok (evs : list Event) (w w' : Session) :
  session_ok w -> run evs w = Some w' -> session_ok w'.
Proof.
  revert w. induction evs as [|e evs IH]; intros w Hw Hrun; cbn in Hrun.
  - now injection Hrun as <-.
  - destruct (step e w) as [w1|] eqn:Hstep; [|discriminate Hrun].
    eapply IH; [|exact Hrun]. eapply step_ok; eassumption.
Qed.

(** C4, as stated, fails: after a link was created and a refresh of it
    failed, the result and the error message are both present, which no
    reading of the status reconciles with "result present iff succeeded"
    and "error message present iff failed". *)
Lemma status_coherence_fails :
  exists w,
    run refresh_while_offline (mount []) = Some w
    /\ shareData (ui w) = Some sample_new
    /\ shareError (ui w)
       = Some "Unable to connect. Please check your internet connection."
    /\ forall view : ShareState -> Status, ~ status_coherent view (ui w).
Proof.
  assert (H : exists w,
             run refresh_while_offline (mount []) = Some w
             /\ shareData (ui w) = Some sample_new
             /\ shareError (ui w) = Some MSG_NETWORK).
  { eexists. repeat split; reflexivity. }
  destruct H as (w & Hrun & Hd & He).
  exists w. repeat split; try assumption.
  intros view [[Hres _] [Herr _]].
  rewrite Hd in Hres. rewrite He in Herr.
  assert (Hs : view (ui w) = Succeeded) by (apply Hres; discriminate).
  assert (Hf : view (ui w) = Failed) by (apply Herr; discriminate).
  congruence.
Qed.

(** C4, amended: in every state reached through the two buttons and the
    settling of requests, the error message is present iff the status is
    failed; the result is present whenever the status is succeeded; and the
    result is at all times the latest successful response of the workflow
    (absent only while none has succeeded), so it stays present while a
    later request is loading or has failed. *)
Theorem reachable_status (stored : list LocalShare) (evs : list Event)
    (w : Session) :
  run evs (mount stored) = Some w ->
  (shareError (ui w) <> None <-> status_of (ui w) = Failed)
  /\ (status_of (ui w) = Succeeded -> shareData (ui w) <> None)
  /\ shareData (ui w) = last_resolved (settled w).
Proof.
  intros Hrun.
  pose proof (run_ok evs _ _ (mount_ok stored) Hrun) as Hw.
  unfold status_of.
  destruct Hw as [r fileId Hd Hl He _ | Hd Hl _]; rewrite Hl.
  - rewrite He. repeat split; try discriminate; try congruence.
  - destruct (shareError (ui w)) as [m|], (shareData (ui w)) as [d|];
      repeat split; try discriminate; try congruence.
Qed.

Lemma reachable_status_witness :
  exists w,
    run refresh_while_offline (mount []) = Some w
    /\ status_of (ui w) = Failed
    /\ shareData (ui w) = last_resolved (settled w).
Proof.
  eexists. split; [reflexivity|].
  split; [reflexivity|].
  exact (proj2 (proj2 (reachable_status [] refresh_while_offline _ eq_refl))).
Defined.

(* ================================================================= *)
(** * Further properties of the code *)

(** ** The case-insensitive test of lines 47 and 50 *)

Lemma prefix_sound (a b : string) :
  String.prefix a b = true -> exists post, b = (a ++ post)%string.
Proof.
  revert b. induction a as [|c a IH]; intros b H.
  - now exists b.
  - destruct b as [|c' b]; [discriminate H|]. cbn in H.
    destruct (ascii_dec c c') as [<-|]; [|discriminate H].
    destruct (IH _ H) as [post ->]. now exists post.
Qed.

Lemma includes_sound (s sub : string) :
  includes s sub = true ->
  exists pre post, s = (pre ++ sub ++ post)%string.
Proof.
  induction s as [|c s IH]; cbn [includes];
    destruct (String.prefix sub _) eqn:Hp.
  - intros _. destruct (prefix_sound _ _ Hp) as [post E].
    now exists EmptyString, post.
  - discriminate.
  - intros _. destruct (prefix_sound _ _ Hp) as [post E].
    now exists EmptyString, post.
  - intros H. destruct (IH H) as (pre & post & ->).
    now exists (String c pre), post.
Qed.

Lemma toLowerCase_split (s a b : string) :
  toLowerCase s = (a ++ b)%string ->
  exists s1 s2, s = (s1 ++ s2)%string
                /\ toLowerCase s1 = a /\ toLowerCase s2 = b.
Proof.
  revert s. induction a as [|c a IH]; intros s H.
  - now exists EmptyString, s.
  - destruct s as [|c' s]; [discriminate H|].
    cbn in H. injection H as Hc H.
    destruct (IH _ H) as (s1 & s2 & -> & H1 & H2).
    exists (String c' s1), s2. cbn. now rewrite Hc, H1.
Qed.

Lemma same_letter_to_lower (a : ascii) :
  same_letter a (to_lower_char a) = true.
Proof.
  unfold same_letter, to_lower_char.
  destruct (is_upper a); cbn [andb].
  - rewrite (Ascii.eqb_refl (ascii_of_N _)). now rewrite orb_true_r.
  - now rewrite Ascii.eqb_refl.
Qed.

Lemma same_word_of_lower (w : string) : same_word w (toLowerCase w) = true.
Proof.
  induction w as [|c w IH]; cbn; [reflexivity|].
  now rewrite same_letter_to_lower, IH.
Qed.

Lemma includes_any_case_inv (s pat : string) :
  includes (toLowerCase s) pat = true -> contains_any_case s pat.
Proof.
  intros H. destruct (includes_sound _ _ H) as (pre & post & E).
  destruct (toLowerCase_split _ _ _ E) as (s1 & s2 & -> & _ & E2).
  destruct (toLowerCase_split _ _ _ E2) as (w & s3 & -> & Hw & _).
  exists s1, w, s3. split; [reflexivity|].
  rewrite <- Hw. apply same_word_of_lower.
Qed.

(** X1: The test [s.toLowerCase().includes(pat)], for a lower-case [pat],
    holds exactly when [s] contains [pat] in some letter casing. *)
Theorem includes_any_case_iff (s pat : string) :
  toLowerCase pat = pat ->
  includes (toLowerCase s) pat = true <-> contains_any_case s pat.
Proof.
  intros Hpat. split.
  - apply includes_any_case_inv.
  - now apply includes_any_case.
Qed.

Lemma includes_any_case_iff_witness :
  includes (toLowerCase "File NOT Found on disk") "not found" = true
  <-> contains_any_case "File NOT Found on disk" "not found".
Proof.
  apply includes_any_case_iff. reflexivity.
Defined.

Lemma includes_none (s pat : string) :
  toLowerCase pat = pat ->
  ~ contains_any_case s pat -> includes (toLowerCase s) pat = false.
Proof.
  intros Hpat Hn. destruct (includes (toLowerCase s) pat) eqn:E;
    [|reflexivity].
  elim Hn. now apply includes_any_case_inv.
Qed.

(** ** The other branches of the classifier *)

Lemma classifier_body (e : AxiosError) (resp : AxiosResponse) :
  response e = Some resp -> status_passes resp ->
  getUserFriendlyError e
  = match opt_get (data resp) "error" with
    | JStr s =>
        if negb (s =? EmptyString)%string then
          if includes (toLowerCase s) "timeout" then MSG_TIMEOUT
          else if includes (toLowerCase s) "not found" then MSG_NOT_FOUND
          else s
        else MSG_FALLBACK
    | _ => MSG_FALLBACK
    end.
Proof.
  intros H (H401 & H403 & H500). unfold getUserFriendlyError.
  rewrite H. cbv zeta.
  apply Z.eqb_neq in H401, H403. rewrite H401, H403. cbn [orb].
  destruct (status resp >=? 500) eqn:E; [apply Z.geb_le in E; lia|].
  destruct (opt_get (data resp) "error"); try reflexivity.
  cbn [truthy typeof_string]. now rewrite andb_true_r.
Qed.

(** X2: A response with status 500 or above is classified as the
    server-unavailable message, whatever its body holds. *)
Theorem classifier_server_unavailable (e : AxiosError)
    (resp : AxiosResponse) :
  response e = Some resp -> 500 <= status resp ->
  getUserFriendlyError e
  = "Server is temporarily unavailable. Please try again later.".
Proof.
  intros H Hs. unfold getUserFriendlyError. rewrite H. cbv zeta.
  replace (status resp =? 403) with false by (symmetry; apply Z.eqb_neq; lia).
  replace (status resp =? 401) with false by (symmetry; apply Z.eqb_neq; lia).
  cbn [orb].
  destruct (status resp >=? 500) eqn:E; [reflexivity|].
  rewrite Z.geb_leb in E. apply Z.leb_gt in E. lia.
Qed.

Lemma classifier_server_unavailable_witness :
  getUserFriendlyError sample_http_500
  = "Server is temporarily unavailable. Please try again later.".
Proof.
  eapply (classifier_server_unavailable sample_http_500);
    [reflexivity | cbn; lia].
Defined.

(** X3: A response that passes the status checks and whose [error] is a
    string containing "not found" in some casing, and "timeout" in none, is
    classified as the file-not-found message. *)
Theorem classifier_not_found (e : AxiosError) (resp : AxiosResponse)
    (serverMessage : string) :
  response e = Some resp -> status_passes resp ->
  opt_get (data resp) "error" = JStr serverMessage ->
  contains_any_case serverMessage "not found" ->
  ~ contains_any_case serverMessage "timeout" ->
  getUserFriendlyError e = "File not found. It may have been deleted.".
Proof.
  intros H Hs Hmsg Hnf Hto.
  rewrite (classifier_body _ _ H Hs), Hmsg.
  rewrite (includes_none _ _ eq_refl Hto).
  rewrite (includes_any_case _ _ eq_refl Hnf).
  destruct serverMessage; [|reflexivity].
  destruct Hnf as (pre & w & post & E & Hw).
  destruct pre; [destruct w|]; discriminate.
Qed.

(** X4: A response that passes the status checks and whose [error] is a
    non-empty string containing neither "timeout" nor "not found" in any
    casing is classified as that string, unchanged. *)
Theorem classifier_passthrough (e : AxiosError) (resp : AxiosResponse)
    (serverMessage : string) :
  response e = Some resp -> status_passes resp ->
  opt_get (data resp) "error" = JStr serverMessage ->
  serverMessage <> EmptyString ->
  ~ contains_any_case serverMessage "timeout" ->
  ~ contains_any_case serverMessage "not found" ->
  getUserFriendlyError e = serverMessage.
Proof.
  intros H Hs Hmsg Hne Hto Hnf.
  rewrite (classifier_body _ _ H Hs), Hmsg.
  apply String.eqb_neq in Hne. rewrite Hne. cbn [negb].
  now rewrite (includes_none _ _ eq_refl Hto),
    (includes_none _ _ eq_refl Hnf).
Qed.

(** X5: A response that passes the status checks and whose body has no
    non-empty string under [error] (no body, no such field, an empty
    string, or a value of another type) is classified as the fallback
    message. *)
Theorem classifier_fallback (e : AxiosError) (resp : AxiosResponse) :
  response e = Some resp -> status_passes resp ->
  (forall s, opt_get (data resp) "error" = JStr s -> s = EmptyString) ->
  getUserFriendlyError e = "Failed to create share link. Please try again.".
Proof.
  intros H Hs Hnone. rewrite (classifier_body _ _ H Hs).
  destruct (opt_get (data resp) "error") as [| | | |s|]; try reflexivity.
  now rewrite (Hnone s eq_refl).
Qed.

Lemma classified_truthy (e : AxiosError) :
  truthy_str (Some (getUserFriendlyError e)) = true.
Proof.
  unfold getUserFriendlyError.
  destruct (response e) as [resp|]; [|reflexivity]. cbv zeta.
  destruct (_ || _); [reflexivity|].
  destruct (_ >=? _); [reflexivity|].
  destruct (opt_get (data resp) "error") as [| | | |s|]; try reflexivity.
  cbn [truthy typeof_string]. rewrite andb_true_r.
  destruct (s =? EmptyString)%string eqn:E; cbn [negb]; [reflexivity|].
  destruct (includes _ "timeout"); [reflexivity|].
  destruct (includes _ "not found"); [reflexivity|].
  cbn. now rewrite E.
Qed.

(** X6: The classifier never returns the empty string. *)
Theorem classifier_never_empty (e : AxiosError) :
  getUserFriendlyError e <> EmptyString.
Proof.
  intros H. pose proof (classified_truthy e) as T.
  rewrite H in T. discriminate T.
Qed.

(** X7: What the classifier returns is one of its six fixed messages, or else
    the string that the body of the response carries under [error]. *)
Theorem classifier_range (e : AxiosError) :
  In (getUserFriendlyError e) FIXED_MESSAGES
  \/ exists resp, response e = Some resp
                  /\ opt_get (data resp) "error"
                     = JStr (getUserFriendlyError e).
Proof.
  unfold getUserFriendlyError, FIXED_MESSAGES.
  destruct (response e) as [resp|]; [|left; cbn; tauto]. cbv zeta.
  destruct (_ || _); [left; cbn; tauto|].
  destruct (_ >=? _); [left; cbn; tauto|].
  destruct (opt_get (data resp) "error") as [| | | |s|] eqn:E;
    try (left; cbn; tauto).
  destruct (_ && _); [|left; cbn; tauto].
  destruct (includes _ "timeout"); [left; cbn; tauto|].
  destruct (includes _ "not found"); [left; cbn; tauto|].
  right. now exists resp.
Qed.

Lemma not_contains_by_test (s pat : string) :
  toLowerCase pat = pat ->
  includes (toLowerCase s) pat = false -> ~ contains_any_case s pat.
Proof.
  intros Hpat Hf Hc. apply (includes_any_case _ _ Hpat) in Hc.
  congruence.
Qed.

Lemma classifier_not_found_witness :
  getUserFriendlyError
    {| message := "Request failed with status code 404"; code := None;
       response := Some {| status := 404;
                           data := JObj [("error",
                                          JStr "File NOT Found on disk")] |}
    |}
  = "File not found. It may have been deleted.".
Proof.
  eapply (classifier_not_found _ _ "File NOT Found on disk").
  - reflexivity.
  - cbv [status_passes status]. lia.
  - reflexivity.
  - exists "File ", "NOT Found", " on disk". split; reflexivity.
  - apply not_contains_by_test; reflexivity.
Defined.

Lemma classifier_passthrough_witness :
  getUserFriendlyError
    {| message := "Request failed with status code 400"; code := None;
       response := Some {| status := 400;
                           data := JObj [("error",
                                          JStr "Quota exceeded")] |} |}
  = "Quota exceeded".
Proof.
  eapply (classifier_passthrough _ _ "Quota exceeded").
  - reflexivity.
  - cbv [status_passes status]. lia.
  - reflexivity.
  - discriminate.
  - apply not_contains_by_test; reflexivity.
  - apply not_contains_by_test; reflexivity.
Defined.

Lemma classifier_fallback_witness :
  getUserFriendlyError
    {| message := "Request failed with status code 400"; code := None;
       response := Some {| status := 400;
                           data := JObj [("error", JNum 17)] |} |}
  = "Failed to create share link. Please try again.".
Proof.
  eapply classifier_fallback.
  - reflexivity.
  - cbv [status_passes status]. lia.
  - cbn. discriminate.
Defined.

(** ** Records built by [saveToLocalStorage] *)

Lemma num_to_string_inj (a b : Z) :
  num_to_string a = num_to_string b -> a = b.
Proof.
  unfold num_to_string. intros H.
  assert (P : forall z, NilZero.int_of_string
                          (NilZero.string_of_int (Z.to_int z))
                        = Some (Z.to_int z)).
  { intros z. apply NilZero.isi; destruct z; cbn; try discriminate;
      intros [= E]; now apply DecimalPos.Unsigned.to_uint_nonnil in E. }
  pose proof (P a) as Pa. rewrite H, P in Pa. injection Pa as E.
  rewrite <- (DecimalZ.of_to a), <- (DecimalZ.of_to b). now rewrite E.
Qed.

(** X8: When the server sends no share id (none, or an empty one), the id of
    the record is made from the clock alone: two records get the same id
    exactly when [Date.now()] read the same millisecond for both, whatever
    files and links they are about. *)
Theorem fallback_id_by_clock (r1 r2 : Render) (clk1 clk2 : Clock)
    (res1 res2 : ShareResult) (fid1 fid2 : string) :
  truthy_str (share_id res1) = false ->
  truthy_str (share_id res2) = false ->
  ls_id (newShare r1 clk1 res1 fid1) = ls_id (newShare r2 clk2 res2 fid2)
  <-> now_id clk1 = now_id clk2.
Proof.
  intros H1 H2.
  assert (E : forall res clk,
             truthy_str (share_id res) = false ->
             or_else (share_id res) ("share-" ++ num_to_string (now_id clk))
             = ("share-" ++ num_to_string (now_id clk))%string).
  { intros res clk H. unfold or_else, truthy_str in *.
    destruct (share_id res) as [s|]; [|reflexivity].
    now destruct (s =? EmptyString)%string. }
  cbn [newShare ls_id]. rewrite (E _ _ H1), (E _ _ H2). split.
  - intros H. cbn in H. injection H as H. now apply num_to_string_inj.
  - now intros ->.
Qed.

Lemma fallback_id_by_clock_witness :
  ls_id (newShare sample_render sample_clock sample_new "f1")
  = ls_id (newShare sample_render
             {| now_id := 1700000000000; now_stamp := 1700000000555 |}
             {| share_url := "https://x/z"; pass_code := None;
                is_existing := None; share_id := Some EmptyString |} "f2")
  <-> 1700000000000 = 1700000000000.
Proof.
  apply (fallback_id_by_clock sample_render sample_render sample_clock
           {| now_id := 1700000000000; now_stamp := 1700000000555 |}
           sample_new
           {| share_url := "https://x/z"; pass_code := None;
              is_existing := None; share_id := Some EmptyString |}
           "f1" "f2"); reflexivity.
Defined.

(** ** One invocation, further *)

(** X9: Whatever the task and the state, an invocation of [handleShare] whose
    request fails (or which is refused for want of a file identity) ends
    with the loading flag down and the alert with its Retry button shown. *)
Theorem failure_shows_retry (r : Render) (st : ShareState) (e : AxiosError)
    (clk : Clock) :
  shareLoading st = false ->
  let st' := complete (handleShare r st) (Rejected e) clk in
  retry_shown st' = true /\ shareLoading st' = false.
Proof.
  intros Hl st'. subst st'. unfold handleShare.
  pose proof (classified_truthy e) as N.
  destruct (task_file_id r) as [fileId|]; [|now split].
  destruct (truthy_str (Some fileId)); [|now split].
  split; [exact N | reflexivity].
Qed.

Lemma failure_shows_retry_witness :
  retry_shown (complete (handleShare sample_render (initial_state []))
                        (Rejected sample_offline) sample_clock) = true.
Proof.
  apply (failure_shows_retry sample_render (initial_state [])
           sample_offline sample_clock eq_refl).
Defined.

(** X10: A click on the share button that has an effect sends exactly one
    request, for a non-empty file identity, and raises the loading flag
    with no error shown: the button is disabled for a task without file
    identity, so the refusal at lines 98-101 is not reached through it. *)
Theorem share_click_sends_one (t : option TaskData) (api : string)
    (w w' : Session) :
  step (ClickShare t api) w = Some w' ->
  exists fileId,
    fileId <> EmptyString
    /\ task_file_id (render_at t api (ui w)) = Some fileId
    /\ sent w' = (sent w ++ [{| url := api ++ "/share";
                                body_id := fileId |}])%list
    /\ shareLoading (ui w') = true
    /\ shareError (ui w') = None
    /\ shareData (ui w') = shareData (ui w)
    /\ shares (ui w') = shares (ui w).
Proof.
  cbn [step]. destruct (share_disabled _ _) eqn:Hdis; [discriminate|].
  intros [= <-]. unfold share_disabled in Hdis.
  apply orb_false_iff in Hdis as [Hdis _].
  apply orb_false_iff in Hdis as [_ Hid].
  apply negb_false_iff in Hid. unfold hasFileId in Hid.
  destruct (task_file_id (render_at t api (ui w))) as [fileId|] eqn:E;
    [|discriminate Hid].
  assert (N : fileId <> EmptyString) by (intros ->; discriminate Hid).
  exists fileId. rewrite (handleShare_ready _ _ _ E N).
  repeat split; assumption.
Qed.

Lemma share_click_sends_one_witness :
  exists w',
    step (ClickShare sample_task "http://api") (mount []) = Some w'
    /\ sent w' = [{| url := "http://api/share"; body_id := "f1" |}].
Proof.
  eexists. split; [reflexivity|].
  destruct (share_click_sends_one sample_task "http://api" (mount []) _
              eq_refl) as (f & _ & Hf & Hs & _).
  injection Hf as <-. exact Hs.
Defined.

(** ** The mounted component, further *)

Lemma alreadyExists_not_in (l : list LocalShare) (fileId : string) :
  alreadyExists l fileId = false -> ~ In fileId (map ls_file_id l).
Proof.
  unfold alreadyExists. induction l as [|s l IH]; cbn; [tauto|].
  intros H. apply orb_false_iff in H as [Hs Hl].
  apply String.eqb_neq in Hs. intros [E|Hin]; [congruence|].
  now apply IH.
Qed.

Lemma count_new_snoc (log : list Outcome) (o : Outcome) :
  count_new (log ++ [o])
  = (count_new log
     + match o with
       | Resolved d => if truthy_bool (is_existing d) then 0 else 1
       | Rejected _ => 0
       end)%nat.
Proof.
  unfold count_new. rewrite filter_app, length_app. f_equal.
  destruct o as [d|e]; cbn; [|reflexivity].
  now destruct (truthy_bool (is_existing d)).
Qed.

(** What the code after the [await] does to the store, when the handler
    was created in the render of the store as it still is. *)
Lemma handleShare_settle_shares (r : Render) (fileId : string)
    (o : Outcome) (clk : Clock) (st : ShareState) :
  snapshot r = shares st ->
  shares (handleShare_settle r fileId o clk st) = shares st
  \/ exists d,
       o = Resolved d
       /\ truthy_bool (is_existing d) = false
       /\ alreadyExists (shares st) fileId = false
       /\ shares (handleShare_settle r fileId o clk st)
          = newShare r clk d fileId :: shares st.
Proof.
  intros Hsnap. unfold handleShare_settle.
  destruct o as [d|e]; [|now left].
  destruct (truthy_bool (is_existing d)) eqn:Hex; cbn [negb]; [now left|].
  unfold saveToLocalStorage. rewrite Hsnap.
  destruct (alreadyExists (shares st) fileId) eqn:Hdup; cbn [negb];
    [now left|].
  right. exists d. repeat split; assumption.
Qed.

Lemma mount_inv (stored : list LocalShare) : session_inv stored (mount stored).
Proof.
  constructor; cbn.
  - right. now split.
  - exists []. split; [reflexivity | apply Nat.le_0_l].
  - tauto.
  - reflexivity.
  - constructor.
Qed.

Lemma launch_inv (stored : list LocalShare) (w : Session)
    (t : option TaskData) (api : string) :
  session_inv stored w ->
  pending w = [] -> shareLoading (ui w) = false ->
  session_inv stored (launch (handleShare (render_at t api (ui w)) (ui w)) w).
Proof.
  intros [_ Hstore Huniq Hsent Hids] Hp Hl.
  rewrite Hp in Hsent. unfold handleShare.
  destruct (task_file_id _) as [fileId|] eqn:Hid.
  - destruct (truthy_str (Some fileId)) eqn:Htr.
    + constructor; cbn; try assumption.
      * left. exists (render_at t api (ui w)), fileId. rewrite Hp.
        repeat split.
      * rewrite Hp, !length_app. cbn in *. lia.
      * apply Forall_app. split; [assumption|].
        constructor; [|constructor]. cbn. intros ->. discriminate Htr.
    + constructor; cbn; try assumption.
      * right. rewrite Hp. now split.
      * rewrite Hp, app_nil_r. cbn in *. lia.
      * now rewrite app_nil_r.
  - constructor; cbn; try assumption.
    + right. rewrite Hp. now split.
    + rewrite Hp, app_nil_r. cbn in *. lia.
    + now rewrite app_nil_r.
Qed.

Lemma step_inv (stored : list LocalShare) (e : Event) (w w' : Session) :
  session_inv stored w -> step e w = Some w' -> session_inv stored w'.
Proof.
  intros Hw Hstep. destruct e as [t api | t api | i o clk]; cbn in Hstep.
  - destruct (share_disabled _ _) eqn:Hdis; [discriminate Hstep|].
    injection Hstep as <-.
    unfold share_disabled in Hdis.
    apply orb_false_iff in Hdis as [Hdis _].
    apply orb_false_iff in Hdis as [Hl _].
    destruct (inv_flight _ _ Hw) as [(r & f & _ & _ & Hl' & _) | [Hp _]];
      [congruence|].
    now apply launch_inv.
  - destruct (retry_shown (ui w)) eqn:Hshown; [|discriminate Hstep].
    injection Hstep as <-. rewrite handleRetry_unfold.
    destruct (inv_flight _ _ Hw) as [(r & f & _ & _ & _ & He) | [Hp Hl]].
    + unfold retry_shown in Hshown. rewrite He in Hshown.
      discriminate Hshown.
    + now apply launch_inv.
  - destruct (nth_error (pending w) i) as [k|] eqn:Hk; [|discriminate Hstep].
    injection Hstep as <-.
    destruct Hw as [Hfl (added & Hadd & Hlen) Huniq Hsent Hids].
    destruct Hfl as [(r & f & Hp & Hsnap & Hl & He) | [Hp _]].
    2:{ rewrite Hp in Hk. destruct i; discriminate Hk. }
    rewrite Hp in Hk, Hsent.
    destruct i as [|i]; [|destruct i; discriminate Hk].
    injection Hk as <-.
    destruct (handleShare_settle_data r f o clk (ui w)) as [Hl' _].
    pose proof (handleShare_settle_shares r f o clk (ui w) Hsnap) as Hsh.
    constructor; cbn [ui pending settled sent].
    + right. rewrite Hp. now split.
    + rewrite count_new_snoc.
      destruct Hsh as [-> | (d & -> & Hex & _ & ->)].
      * exists added. split; [assumption | lia].
      * exists (newShare r clk d f :: added). rewrite Hadd, Hex.
        split; [reflexivity | cbn; lia].
    + intros Hnd. specialize (Huniq Hnd).
      destruct Hsh as [-> | (d & _ & _ & Hdup & ->)]; [assumption|].
      cbn. constructor; [|assumption].
      now apply alreadyExists_not_in.
    + rewrite Hp, length_app. cbn in *. lia.
    + assumption.
Qed.

Lemma run_inv (stored : list LocalShare) (evs : list Event)
    (w w' : Session) :
  session_inv stored w -> run evs w = Some w' -> session_inv stored w'.
Proof.
  revert w. induction evs as [|e evs IH]; intros w Hw Hrun; cbn in Hrun.
  - now injection Hrun as <-.
  - destruct (step e w) as [w1|] eqn:Hstep; [|discriminate Hrun].
    eapply IH; [|exact Hrun]. eapply step_inv; eassumption.
Qed.

(** X11: Through the two buttons at most one request is ever in flight, and the
    loading flag (the spinner, the disabled button) is up exactly while one
    is. *)
Theorem one_request_in_flight (stored : list LocalShare)
    (evs : list Event) (w : Session) :
  run evs (mount stored) = Some w ->
  (length (pending w) <= 1)%nat
  /\ (shareLoading (ui w) = true <-> pending w <> []).
Proof.
  intros Hrun.
  destruct (inv_flight _ _ (run_inv _ _ _ _ (mount_inv stored) Hrun))
    as [(r & f & -> & _ & -> & _) | [-> ->]]; cbn.
  - split; [lia|]. split; [discriminate | reflexivity].
  - split; [lia|]. split; [discriminate | congruence].
Qed.

Lemma one_request_in_flight_witness :
  exists w,
    run [ClickShare sample_task "http://api"] (mount []) = Some w
    /\ (length (pending w) <= 1)%nat
    /\ (shareLoading (ui w) = true <-> pending w <> []).
Proof.
  eexists. split; [reflexivity|].
  apply (one_request_in_flight [] [ClickShare sample_task "http://api"]).
  reflexivity.
Defined.

(** X12: Every request sent has either settled or is the one in flight: as
    many were sent as outcomes were received, plus the one pending; and
    every request sent names a non-empty file identity. *)
Theorem requests_accounted (stored : list LocalShare) (evs : list Event)
    (w : Session) :
  run evs (mount stored) = Some w ->
  length (sent w) = (length (settled w) + length (pending w))%nat
  /\ Forall (fun q => body_id q <> EmptyString) (sent w).
Proof.
  intros Hrun.
  pose proof (run_inv _ _ _ _ (mount_inv stored) Hrun) as Hw.
  split; [apply (inv_sent _ _ Hw) | apply (inv_ids _ _ Hw)].
Qed.

Lemma requests_accounted_witness :
  exists w,
    run refresh_while_offline (mount []) = Some w
    /\ length (sent w) = 2%nat /\ length (settled w) = 2%nat.
Proof.
  eexists. split; [reflexivity|].
  pose proof (proj1 (requests_accounted [] refresh_while_offline _ eq_refl))
    as H.
  split; [exact H | reflexivity].
Defined.

(** X13: The store only grows, at its front: the records it was mounted with
    stay where they were, unchanged, and no more records were added than
    successes not flagged as existing were received. *)
Theorem store_only_grows (stored : list LocalShare) (evs : list Event)
    (w : Session) :
  run evs (mount stored) = Some w ->
  exists added,
    shares (ui w) = (added ++ stored)%list
    /\ (length added <= count_new (settled w))%nat.
Proof.
  intros Hrun.
  apply (inv_store _ _ (run_inv _ _ _ _ (mount_inv stored) Hrun)).
Qed.

Lemma store_only_grows_witness :
  exists w added,
    run refresh_while_offline (mount []) = Some w
    /\ shares (ui w) = (added ++ [])%list
    /\ (length added <= 1)%nat.
Proof.
  eexists.
  destruct (store_only_grows [] refresh_while_offline _ eq_refl)
    as (added & H1 & H2).
  exists added. split; [reflexivity|]. split; [exact H1 | exact H2].
Defined.

(** X14: A store mounted without two records of one file identity never comes
    to hold two. *)
Theorem store_stays_unique (stored : list LocalShare) (evs : list Event)
    (w : Session) :
  run evs (mount stored) = Some w ->
  NoDup (map ls_file_id stored) ->
  NoDup (map ls_file_id (shares (ui w))).
Proof.
  intros Hrun.
  apply (inv_unique _ _ (run_inv _ _ _ _ (mount_inv stored) Hrun)).
Qed.

Lemma store_stays_unique_witness :
  exists w,
    run [ ClickShare sample_task "http://api";
          Settle 0 (Resolved sample_new) sample_clock;
          ClickShare sample_task "http://api";
          Settle 0 (Resolved sample_new) sample_clock ] (mount [])
    = Some w
    /\ NoDup (map ls_file_id (shares (ui w))).
Proof.
  eexists. split; [reflexivity|].
  apply (store_stays_unique []
           [ ClickShare sample_task "http://api";
             Settle 0 (Resolved sample_new) sample_clock;
             ClickShare sample_task "http://api";
             Settle 0 (Resolved sample_new) sample_clock ]);
    [reflexivity | constructor].
Defined.

(** X15: Once the server has answered that the share already exists, the
    component has nothing left to do: with that result shown and no error,
    the share button is disabled, no Retry button is there and no request
    is in flight, so no event has any effect. *)
Theorem existing_share_is_final (stored : list LocalShare)
    (evs : list Event) (w : Session) (d : ShareResult) :
  run evs (mount stored) = Some w ->
  status_of (ui w) = Succeeded ->
  shareData (ui w) = Some d ->
  truthy_bool (is_existing d) = true ->
  forall e, step e w = None.
Proof.
  intros Hrun Hst Hd Hex e.
  unfold status_of in Hst.
  destruct (shareLoading (ui w)) eqn:Hl; [discriminate Hst|].
  destruct (shareError (ui w)) as [m|] eqn:He; [discriminate Hst|].
  destruct (inv_flight _ _ (run_inv _ _ _ _ (mount_inv stored) Hrun))
    as [(r & f & _ & _ & Hl' & _) | [Hp _]]; [congruence|].
  destruct e as [t api | t api | i o clk]; cbn [step].
  - unfold share_disabled. rewrite Hd, Hex.
    now rewrite orb_true_r.
  - unfold retry_shown. now rewrite He.
  - rewrite Hp. now destruct i.
Qed.

Lemma existing_share_is_final_witness :
  exists w,
    run [ ClickShare sample_task "http://api";
          Settle 0 (Resolved sample_existing) sample_clock ] (mount [])
    = Some w
    /\ step (ClickShare sample_task "http://api") w = None.
Proof.
  eexists. split; [reflexivity|].
  apply (existing_share_is_final []
           [ ClickShare sample_task "http://api";
             Settle 0 (Resolved sample_existing) sample_clock ]
           _ sample_existing); reflexivity.
Defined.
